(** * tools/ascii-art-generator/main.py

    The tool is an eight-line script:
<<
    import sys
    import json
    import pyfiglet

    text = sys.argv[1]
    ascii_art = pyfiglet.figlet_format(text)

    print(json.dumps({'ascii_art': ascii_art}))
>>
    The script is embedded as a computation in a small monad that carries
    [sys.stdout] (its encoding and the text written to it) and the calls
    made to the renderer, and may stop with an uncaught exception.
    [pyfiglet.figlet_format] is an external collaborator and stays a
    parameter.  [json.dumps], [json.loads], [print], the codecs of a
    text stream and list indexing belong to the Python language and its
    standard library; they are written out here after CPython's
    [json.encoder], [json.decoder] and [json.scanner] (the pure-Python
    reference implementations) and its codecs, on the values this script
    hands them. *)

From Stdlib Require Import String Ascii.
From Stdlib Require Import NArith ZArith List Bool Lia.
Import ListNotations.

Open Scope N_scope.

(** ** Python strings *)

Module PyStr.

(** A Python [str] is a sequence of code points; [ord] of each lies in
    [range(0x110000)].  Lone surrogates are legal members of a [str]. *)
Abbreviation codepoint := N (only parsing).
Definition str := list codepoint.

Definition in_unicode_range (c : codepoint) : bool := c <? 0x110000.

Definition valid_str (s : str) : bool := forallb in_unicode_range s.

(** A literal of the script, written as a Rocq string. *)
Definition lit (s : String.string) : str :=
  map N_of_ascii (list_ascii_of_string s).

Definition QUOTE : codepoint := 34.
Definition BACKSLASH : codepoint := 92.
Definition NEWLINE : codepoint := 10.

(** [s.startswith(p)], also the slice tests [s[i:i+k] == p]. *)
Fixpoint starts_with (p s : str) : bool :=
  match p, s with
  | [], _ => true
  | _ :: _, [] => false
  | a :: p', b :: s' => (a =? b) && starts_with p' s'
  end.

(** [chr(n)]: [ValueError] outside [range(0x110000)]. *)
Definition chr (n : N) : option codepoint :=
  if in_unicode_range n then Some n else None.

(** *** ['{0:04x}'.format(n)] *)

Fixpoint hex_chars (u : Hexadecimal.uint) : str :=
  match u with
  | Hexadecimal.Nil => []
  | Hexadecimal.D0 u => 48 :: hex_chars u
  | Hexadecimal.D1 u => 49 :: hex_chars u
  | Hexadecimal.D2 u => 50 :: hex_chars u
  | Hexadecimal.D3 u => 51 :: hex_chars u
  | Hexadecimal.D4 u => 52 :: hex_chars u
  | Hexadecimal.D5 u => 53 :: hex_chars u
  | Hexadecimal.D6 u => 54 :: hex_chars u
  | Hexadecimal.D7 u => 55 :: hex_chars u
  | Hexadecimal.D8 u => 56 :: hex_chars u
  | Hexadecimal.D9 u => 57 :: hex_chars u
  | Hexadecimal.Da u => 97 :: hex_chars u
  | Hexadecimal.Db u => 98 :: hex_chars u
  | Hexadecimal.Dc u => 99 :: hex_chars u
  | Hexadecimal.Dd u => 100 :: hex_chars u
  | Hexadecimal.De u => 101 :: hex_chars u
  | Hexadecimal.Df u => 102 :: hex_chars u
  end.

(** Lower-case hexadecimal digits, padded with ['0'] on the left to a
    width of at least four. *)
Definition format_04x (n : N) : str :=
  let digits := hex_chars (N.to_hex_uint n) in
  repeat 48 (4 - length digits)%nat ++ digits.

(** *** [int(s, 16)] on one digit matched by [[0-9A-Fa-f]] *)

Definition hex_value (c : codepoint) : option N :=
  if (48 <=? c) && (c <=? 57) then Some (c - 48)
  else if (97 <=? c) && (c <=? 102) then Some (c - 87)
  else if (65 <=? c) && (c <=? 70) then Some (c - 55)
  else None.

(** *** Surrogate code points *)

Definition is_high_surrogate (c : codepoint) : bool :=
  (0xd800 <=? c) && (c <=? 0xdbff).
Definition is_low_surrogate (c : codepoint) : bool :=
  (0xdc00 <=? c) && (c <=? 0xdfff).
Definition is_surrogate (c : codepoint) : bool :=
  is_high_surrogate c || is_low_surrogate c.

(** The code point a high and a low surrogate stand for together:
    [0x10000 + (((hi - 0xd800) << 10) | (lo - 0xdc00))]. *)
Definition join_pair (hi lo : N) : N :=
  0x10000 + N.lor (N.shiftl (hi - 0xd800) 10) (lo - 0xdc00).

(** *** Character classes used below *)

(** The printable ASCII range, space to tilde. *)
Definition printable (c : codepoint) : bool := (32 <=? c) && (c <=? 126).

Definition is_lower_hex (c : codepoint) : bool :=
  ((48 <=? c) && (c <=? 57)) || ((97 <=? c) && (c <=? 102)).

(** *** The [utf-8] codec in strict mode ([str.encode]), the encoding of
    [sys.stdout].  Surrogates are not encodable. *)
Definition utf8_encode_char (c : codepoint) : option (list N) :=
  if c <? 0x80 then Some [c]
  else if c <? 0x800 then
    Some [N.lor 0xc0 (N.shiftr c 6); N.lor 0x80 (N.land c 0x3f)]
  else if c <? 0x10000 then
    if (0xd800 <=? c) && (c <=? 0xdfff) then None
    else Some [N.lor 0xe0 (N.shiftr c 12);
               N.lor 0x80 (N.land (N.shiftr c 6) 0x3f);
               N.lor 0x80 (N.land c 0x3f)]
  else if c <? 0x110000 then
    Some [N.lor 0xf0 (N.shiftr c 18);
          N.lor 0x80 (N.land (N.shiftr c 12) 0x3f);
          N.lor 0x80 (N.land (N.shiftr c 6) 0x3f);
          N.lor 0x80 (N.land c 0x3f)]
  else None.

Fixpoint utf8_encode (s : str) : option (list N) :=
  match s with
  | [] => Some []
  | c :: s' =>
      match utf8_encode_char c, utf8_encode s' with
      | Some b, Some bs => Some (b ++ bs)
      | _, _ => None
      end
  end.

(** *** The other codecs a text stream may be given

    [ascii] and [latin-1] encode each code point they know as one byte;
    [utf-16-le] writes two bytes per code unit, low byte first, with a
    surrogate pair for a code point above [0xffff] and no byte-order
    mark.  All in strict mode: what a codec cannot encode is a
    [UnicodeEncodeError] ([None]). *)
Inductive codec : Type := UTF_8 | ASCII | LATIN_1 | UTF_16_LE.

Definition ascii_encode (s : str) : option (list N) :=
  if forallb (fun c => c <? 0x80) s then Some s else None.

Definition latin1_encode (s : str) : option (list N) :=
  if forallb (fun c => c <? 0x100) s then Some s else None.

Definition utf16_units (c : codepoint) : option (list N) :=
  if c <? 0x10000 then
    if is_surrogate c then None else Some [c]
  else if c <? 0x110000 then
    Some [N.lor 0xd800 (N.shiftr (c - 0x10000) 10);
          N.lor 0xdc00 (N.land (c - 0x10000) 0x3ff)]
  else None.

Definition le_bytes (code_unit : N) : list N :=
  [N.land code_unit 0xff; N.shiftr code_unit 8].

Fixpoint utf16_le_encode (s : str) : option (list N) :=
  match s with
  | [] => Some []
  | c :: s' =>
      match utf16_units c, utf16_le_encode s' with
      | Some units, Some bs => Some (flat_map le_bytes units ++ bs)
      | _, _ => None
      end
  end.

(** [s.encode(enc)]. *)
Definition encode (enc : codec) (s : str) : option (list N) :=
  match enc with
  | UTF_8 => utf8_encode s
  | ASCII => ascii_encode s
  | LATIN_1 => latin1_encode s
  | UTF_16_LE => utf16_le_encode s
  end.

(** The codecs under which ASCII text is its own encoding. *)
Definition ascii_compatible (enc : codec) : bool :=
  match enc with
  | UTF_8 | ASCII | LATIN_1 => true
  | UTF_16_LE => false
  end.

End PyStr.

(** ** The [json] module *)

Module Json.
Import PyStr.

(** The Python values the encoder and the decoder exchange.  A [dict] is
    an association list in insertion order with distinct keys.  Numbers
    are floating point on the Python side and are not part of this
    fragment: the script never serializes one. *)
#[warnings="-register-all"] Inductive value : Type :=
| JNull
| JBool (b : bool)
| JStr (s : str)
| JList (items : list value)
| JDict (items : list (str * value)).

(** *** json.encoder *)

(** The pattern [ESCAPE_ASCII] on one character: a backslash, a double
    quote, or anything outside the printable range from space to
    tilde. *)
Definition ESCAPE_ASCII (c : codepoint) : bool :=
  (c =? BACKSLASH) || (c =? QUOTE) || negb ((32 <=? c) && (c <=? 126)).

(** [ESCAPE_DCT], with the [setdefault] loop over [range(0x20)]. *)
Definition ESCAPE_DCT (c : codepoint) : option str :=
  if c =? BACKSLASH then Some [BACKSLASH; BACKSLASH]
  else if c =? QUOTE then Some [BACKSLASH; QUOTE]
  else if c =? 8 then Some (lit "\b")
  else if c =? 12 then Some (lit "\f")
  else if c =? 10 then Some (lit "\n")
  else if c =? 13 then Some (lit "\r")
  else if c =? 9 then Some (lit "\t")
  else if c <? 0x20 then Some (lit "\u" ++ format_04x c)
  else None.

(** The inner [replace(match)] of [py_encode_basestring_ascii]. *)
Definition replace (c : codepoint) : str :=
  match ESCAPE_DCT c with
  | Some r => r
  | None =>
      let n := c in
      if n <? 0x10000 then lit "\u" ++ format_04x n
      else
        let n := n - 0x10000 in
        let s1 := N.lor 0xd800 (N.land (N.shiftr n 10) 0x3ff) in
        let s2 := N.lor 0xdc00 (N.land n 0x3ff) in
        lit "\u" ++ format_04x s1 ++ lit "\u" ++ format_04x s2
  end.

(** [ESCAPE_ASCII.sub(replace, s)]: every matching character is
    replaced, the others are kept. *)
Definition sub_one (c : codepoint) : str :=
  if ESCAPE_ASCII c then replace c else [c].

Definition escape_sub (s : str) : str := flat_map sub_one s.

Definition py_encode_basestring_ascii (s : str) : str :=
  QUOTE :: escape_sub s ++ [QUOTE].

(** [JSONEncoder.iterencode] with the defaults of [json.dumps]:
    [ensure_ascii=True], [indent=None], [item_separator = ', '],
    [key_separator = ': '].  [sep_join] yields the items with the
    separator before all but the first. *)
Definition item_separator : str := lit ", ".
Definition key_separator : str := lit ": ".

Fixpoint sep_join (chunks : list str) : str :=
  match chunks with
  | [] => []
  | [c] => c
  | c :: rest => c ++ item_separator ++ sep_join rest
  end.

Fixpoint iterencode (o : value) : str :=
  match o with
  | JNull => lit "null"
  | JBool true => lit "true"
  | JBool false => lit "false"
  | JStr s => py_encode_basestring_ascii s
  | JList items =>
      lit "[" ++ sep_join (map iterencode items) ++ lit "]"
  | JDict items =>
      lit "{"
      ++ sep_join
           (map (fun kv =>
                   py_encode_basestring_ascii (fst kv)
                   ++ key_separator ++ iterencode (snd kv)) items)
      ++ lit "}"
  end.

Definition dumps (obj : value) : str := iterencode obj.

(** *** json.decoder and json.scanner

    The decoder works on the remaining input instead of on a pair of
    the whole string and an index; [None] is a [JSONDecodeError]. *)

(** [WHITESPACE_STR]: space, tab, line feed, carriage return. *)
Definition in_WHITESPACE_STR (c : codepoint) : bool :=
  (c =? 32) || (c =? 9) || (c =? 10) || (c =? 13).

(** [WHITESPACE.match(s, end).end()]: the longest run of whitespace. *)
Fixpoint skip_WHITESPACE (s : str) : str :=
  match s with
  | [] => []
  | c :: s' => if in_WHITESPACE_STR c then skip_WHITESPACE s' else s
  end.

(** The decoder's [BACKSLASH] table: the character after a backslash
    that is not [u]. *)
Definition BACKSLASH_DCT (esc : codepoint) : option codepoint :=
  if esc =? QUOTE then Some QUOTE
  else if esc =? BACKSLASH then Some BACKSLASH
  else if esc =? 47 then Some 47
  else if esc =? 98 then Some 8
  else if esc =? 102 then Some 12
  else if esc =? 110 then Some 10
  else if esc =? 114 then Some 13
  else if esc =? 116 then Some 9
  else None.

(** [_decode_uXXXX] on the input that follows the [u]: four hexadecimal
    digits, read by [int(..., 16)]. *)
Definition _decode_uXXXX (s : str) : option N :=
  match s with
  | a :: b :: c :: d :: _ =>
      match hex_value a, hex_value b, hex_value c, hex_value d with
      | Some a, Some b, Some c, Some d =>
          Some (((a * 16 + b) * 16 + c) * 16 + d)
      | _, _, _, _ => None
      end
  | _ => None
  end.

(** [_append(char)] on the result of the rest of the scan. *)
Definition append_char (char : option codepoint)
    (rest : option (str * str)) : option (str * str) :=
  match char, rest with
  | Some c, Some (chunks, tail) => Some (c :: chunks, tail)
  | _, _ => None
  end.

(** [py_scanstring(s, end, strict=True)], entered after the opening
    quote; returns the decoded string and the input after the closing
    quote. *)
Fixpoint py_scanstring (s : str) : option (str * str) :=
  match s with
  | [] => None
  | c :: s1 =>
      if c =? QUOTE then Some ([], s1)
      else if c =? BACKSLASH then
        match s1 with
        | [] => None
        | esc :: s2 =>
            if negb (esc =? 117) then
              append_char (BACKSLASH_DCT esc) (py_scanstring s2)
            else
              match _decode_uXXXX s2, s2 with
              | Some uni, _ :: _ :: _ :: _ :: s3 =>
                  if is_high_surrogate uni && starts_with (lit "\u") s3
                  then
                    match s3 with
                    | _ :: _ :: (_ :: _ :: _ :: _ :: s4) as digits =>
                        match _decode_uXXXX digits with
                        | Some uni2 =>
                            if is_low_surrogate uni2 then
                              append_char (chr (join_pair uni uni2))
                                (py_scanstring s4)
                            else append_char (chr uni) (py_scanstring s3)
                        | None => None
                        end
                    | _ => None
                    end
                  else append_char (chr uni) (py_scanstring s3)
              | _, _ => None
              end
        end
      else if c <? 0x20 then None
      else append_char (Some c) (py_scanstring s1)
  end.

(** [dict(pairs)]: a later pair with a key already present replaces the
    value and keeps the key's place. *)
Fixpoint dict_setitem (d : list (str * value)) (k : str) (v : value)
    : list (str * value) :=
  match d with
  | [] => [(k, v)]
  | (k', v') :: d' =>
      if list_eq_dec N.eq_dec k k' then (k', v) :: d'
      else (k', v') :: dict_setitem d' k v
  end.

Definition dict (pairs : list (str * value)) : list (str * value) :=
  fold_left (fun d kv => dict_setitem d (fst kv) (snd kv)) pairs [].

(** [scan_once] with [JSONObject] and [JSONArray].  The two [while]
    loops are [object_loop] and [array_loop]; [fuel] bounds the number
    of calls.  Number tokens and the constants [NaN], [Infinity] and
    [-Infinity] are outside the fragment and are refused here. *)
Fixpoint scan_once (fuel : nat) (s : str) : option (value * str) :=
  match fuel with
  | O => None
  | S fuel =>
      match s with
      | [] => None
      | nextchar :: s1 =>
          if nextchar =? QUOTE then
            match py_scanstring s1 with
            | Some (v, rest) => Some (JStr v, rest)
            | None => None
            end
          else if nextchar =? 123 then
            (* JSONObject *)
            match skip_WHITESPACE s1 with
            | c :: s2 =>
                if c =? 125 then Some (JDict [], s2)
                else if c =? QUOTE then object_loop fuel [] s2
                else None
            | [] => None
            end
          else if nextchar =? 91 then
            (* JSONArray *)
            match skip_WHITESPACE s1 with
            | c :: s2 =>
                if c =? 93 then Some (JList [], s2)
                else array_loop fuel [] (c :: s2)
            | [] => None
            end
          else if starts_with (lit "null") s then
            Some (JNull, skipn 4 s)
          else if starts_with (lit "true") s then
            Some (JBool true, skipn 4 s)
          else if starts_with (lit "false") s then
            Some (JBool false, skipn 5 s)
          else None
      end
  end

with object_loop (fuel : nat) (pairs : list (str * value)) (s : str)
    : option (value * str) :=
  match fuel with
  | O => None
  | S fuel =>
      match py_scanstring s with
      | None => None
      | Some (key, s) =>
          match skip_WHITESPACE s with
          | c :: s =>
              if c =? 58 then
                match scan_once fuel (skip_WHITESPACE s) with
                | None => None
                | Some (v, s) =>
                    let pairs := pairs ++ [(key, v)] in
                    match skip_WHITESPACE s with
                    | c :: s =>
                        if c =? 125 then Some (JDict (dict pairs), s)
                        else if c =? 44 then
                          match skip_WHITESPACE s with
                          | c :: s =>
                              if c =? QUOTE then object_loop fuel pairs s
                              else None
                          | [] => None
                          end
                        else None
                    | [] => None
                    end
                end
              else None
          | [] => None
          end
      end
  end

with array_loop (fuel : nat) (values : list value) (s : str)
    : option (value * str) :=
  match fuel with
  | O => None
  | S fuel =>
      match scan_once fuel s with
      | None => None
      | Some (v, s) =>
          let values := values ++ [v] in
          match skip_WHITESPACE s with
          | c :: s =>
              if c =? 93 then Some (JList values, s)
              else if c =? 44 then array_loop fuel values (skip_WHITESPACE s)
              else None
          | [] => None
          end
      end
  end.

(** [JSONDecoder.decode]: leading whitespace, one value, trailing
    whitespace, and nothing else ([Extra data] otherwise).  [json.loads]
    refuses a leading byte-order mark first. *)
Definition decode (s : str) : option value :=
  match scan_once (S (length s)) (skip_WHITESPACE s) with
  | Some (obj, rest) =>
      match skip_WHITESPACE rest with
      | [] => Some obj
      | _ :: _ => None
      end
  | None => None
  end.

Definition loads (s : str) : option value :=
  if starts_with [0xfeff] s then None else decode s.

(** *** What an encoded string decodes to

    The encoder writes a lone surrogate as one [\u] escape and the
    decoder reads a high surrogate escape followed by a low surrogate
    escape as one code point, so a [str] is read back with such
    neighbours joined.  A [str] without surrogates is read back as it
    is. *)
Fixpoint join_surrogates (s : str) : str :=
  match s with
  | [] => []
  | c :: s' =>
      match s' with
      | c2 :: s'' =>
          if is_high_surrogate c && is_low_surrogate c2
          then join_pair c c2 :: join_surrogates s''
          else c :: join_surrogates s'
      | [] => [c]
      end
  end.

(** The four forms [sub_one c] can take. *)
Inductive enc_shape (c : codepoint) : str -> Prop :=
| shape_plain :
    printable c = true -> c <> QUOTE -> c <> BACKSLASH ->
    enc_shape c [c]
| shape_short (x : codepoint) :
    printable x = true -> x <> 117 -> BACKSLASH_DCT x = Some c ->
    c < 0x80 ->
    enc_shape c [BACKSLASH; x]
| shape_u :
    c < 0x10000 -> printable c = false ->
    enc_shape c (lit "\u" ++ format_04x c)
| shape_pair (s1 s2 : N) :
    0x10000 <= c ->
    is_high_surrogate s1 = true -> is_low_surrogate s2 = true ->
    (c < 0x110000 -> join_pair s1 s2 = c) ->
    enc_shape c (lit "\u" ++ format_04x s1 ++ lit "\u" ++ format_04x s2).

(** The numbers below a bound, and the test run over all of
    [range(0x10000)]: [format_04x] gives four lower-case hexadecimal
    digits that [_decode_uXXXX] reads back. *)
Definition below (bound : N) : list N :=
  N.recursion [] (fun k acc => k :: acc) bound.

Definition format_04x_check (n : N) : bool :=
  match format_04x n with
  | [a; b; c; d] =>
      is_lower_hex a && is_lower_hex b && is_lower_hex c && is_lower_hex d
      && match _decode_uXXXX [a; b; c; d] with
         | Some m => m =? n
         | None => false
         end
  | _ => false
  end.

(** The object the script serializes, and the fixed text around the
    escaped art in its serialization. *)
Definition ascii_art_object (art : str) : value :=
  JDict [(lit "ascii_art", JStr art)].

Definition document_head : str :=
  lit "{" ++ QUOTE :: lit "ascii_art" ++ QUOTE :: lit ": " ++ [QUOTE].

Definition document_tail : str := QUOTE :: lit "}".

End Json.

(** ** The script *)

Module Script.
Import PyStr Json.

(** What the operating system and the interpreter's start-up hand the
    script: the command line, the environment variables, the files a
    program could read its configuration from, and the encoding the
    interpreter has given [sys.stdout], which it takes from
    [PYTHONIOENCODING] and the locale before the script starts (one of
    the codecs above).  The script reads [sys.argv] and prints to
    [sys.stdout]. *)
Record process_env : Type := {
  sys_argv : list str;
  os_environ : list (str * str);
  config_files : list (str * str);
  stdout_encoding : codec
}.

(** [list.__getitem__] with an integer index: a negative index counts
    from the end, an index out of range raises [IndexError] ([None]). *)
Definition list_getitem {A : Type} (l : list A) (i : Z) : option A :=
  let n := Z.of_nat (length l) in
  let i := if (i <? 0)%Z then (i + n)%Z else i in
  if ((i <? 0) || (n <=? i))%Z then None else nth_error l (Z.to_nat i).

(** A text stream: its encoding and the text written to it so far. *)
Record text_stream : Type := {
  encoding : codec;
  written : str
}.

(** The bytes a text stream has handed to its file descriptor: the
    encoding of the text written to it. *)
Definition stream_bytes (f : text_stream) : option (list N) :=
  encode (encoding f) (written f).

Section Program.

(** The exceptions [pyfiglet] may raise, and [pyfiglet.figlet_format]
    with its default font and settings: either an exception or the
    rendered [str]. *)
Variable fault : Type.
Variable figlet_format : str -> fault + str.

Inductive exception : Type :=
| IndexError
| UnicodeEncodeError
| RenderingFault (e : fault).

(** The state a statement of the script runs in: [sys.stdout], and the
    arguments of the calls made to [pyfiglet.figlet_format] so far, in
    order. *)
Record world : Type := {
  sys_stdout : text_stream;
  figlet_calls : list str
}.

(** A computation of the interpreter: from a state to a result or a
    raised exception, and the state after it. *)
Definition io (A : Type) : Type := world -> (exception + A) * world.

Definition ret {A : Type} (a : A) : io A := fun w => (inr a, w).

Definition raise {A : Type} (e : exception) : io A :=
  fun w => (inl e, w).

Definition bind {A B : Type} (c : io A) (k : A -> io B) : io B :=
  fun w =>
    match c w with
    | (inr a, w') => k a w'
    | (inl e, w') => (inl e, w')
    end.

Notation "x <- c ;; k" := (bind c (fun x => k))
  (at level 61, c at next level, right associativity).
Notation "c ;;; k" := (bind c (fun _ => k))
  (at level 61, right associativity).

(** [sys.stdout.write(s)]: the text is encoded with the stream's codec,
    in strict mode, when it is written. *)
Definition write (s : str) : io unit :=
  fun w =>
    let f := sys_stdout w in
    match encode (encoding f) s with
    | Some _ =>
        (inr tt,
         {| sys_stdout :=
              {| encoding := encoding f; written := written f ++ s |};
            figlet_calls := figlet_calls w |})
    | None => (inl UnicodeEncodeError, w)
    end.

(** [print(s)] for a [str]: the text, then the line end. *)
Definition print (s : str) : io unit :=
  write s ;;; write [NEWLINE].

Definition argv_getitem (argv : list str) (i : Z) : io str :=
  match list_getitem argv i with
  | Some a => ret a
  | None => raise IndexError
  end.

(** One call of the renderer: the call is made, then it returns or
    raises. *)
Definition call_figlet_format (text : str) : io str :=
  fun w =>
    let w' := {| sys_stdout := sys_stdout w;
                 figlet_calls := figlet_calls w ++ [text] |} in
    match figlet_format text with
    | inr art => (inr art, w')
    | inl e => (inl (RenderingFault e), w')
    end.

(** The module body of [main.py]. *)
Definition main (env : process_env) : io unit :=
  text <- argv_getitem (sys_argv env) 1 ;;
  ascii_art <- call_figlet_format text ;;
  print (dumps (JDict [(lit "ascii_art", JStr ascii_art)])).

(** The state the module body starts in, and the module body run from
    it. *)
Definition initial_world (env : process_env) : world :=
  {| sys_stdout := {| encoding := stdout_encoding env; written := [] |};
     figlet_calls := [] |}.

Definition exec (env : process_env) : (exception + unit) * world :=
  main env (initial_world env).

(** The process as seen from outside: the text on standard output,
    the exit status (0 on normal termination, 1 when an exception
    leaves the module body uncaught) and the uncaught exception the
    interpreter reports on standard error. *)
Record outcome : Type := {
  stdout : str;
  exit_status : N;
  uncaught : option exception
}.

Definition run (env : process_env) : outcome :=
  match exec env with
  | (inr _, w) =>
      {| stdout := written (sys_stdout w);
         exit_status := 0; uncaught := None |}
  | (inl e, w) =>
      {| stdout := written (sys_stdout w);
         exit_status := 1; uncaught := Some e |}
  end.

(** The bytes on file descriptor 1 when the process ends, and the calls
    the run made to the renderer. *)
Definition stdout_bytes (env : process_env) : option (list N) :=
  stream_bytes (sys_stdout (snd (exec env))).

Definition renderer_calls (env : process_env) : list str :=
  figlet_calls (snd (exec env)).

(** All that is observed of a run. *)
Record observation : Type := {
  result : outcome;
  rendered : list str
}.

Definition observe (env : process_env) : observation :=
  {| result := run env; rendered := renderer_calls env |}.

(** *** The reference function of the specification

    [print(serialize({ascii_art: render(argv[1])}))], written as the
    four steps in a row, each done once: read the first argument, apply
    the renderer, wrap the result in a single-key object, serialize and
    print it.  A step that fails ends the run with status 1 and nothing
    printed.  It is written on the command line alone, without the
    interpreter's state. *)
Definition first_argument (argv : list str) : exception + str :=
  match argv with
  | _ :: s :: _ => inr s
  | _ => inl IndexError
  end.

Definition render (text : str) : exception + str :=
  match figlet_format text with
  | inr art => inr art
  | inl e => inl (RenderingFault e)
  end.

Definition wrap (art : str) : value := JDict [(lit "ascii_art", JStr art)].

Definition serialize (obj : value) : str := dumps obj.

Definition printed (document : str) : str := document ++ [NEWLINE].

Definition failed (e : exception) (calls : list str) : observation :=
  {| result := {| stdout := []; exit_status := 1; uncaught := Some e |};
     rendered := calls |}.

Definition reference (argv : list str) : observation :=
  match first_argument argv with
  | inl e => failed e []
  | inr text =>
      match render text with
      | inl e => failed e [text]
      | inr art =>
          {| result := {| stdout := printed (serialize (wrap art));
                          exit_status := 0;
                          uncaught := None |};
             rendered := [text] |}
      end
  end.

End Program.

(** *** A renderer and invocations to run the script on

    [sample_figlet] stands in for [pyfiglet.figlet_format] where the
    script is run on concrete input: printable text is rendered as
    itself on a line of its own, the empty text as the empty text, and
    anything else is refused. *)
Inductive sample_fault : Type := CharNotPrinted.

Definition sample_figlet (text : str) : sample_fault + str :=
  if forallb printable text then
    match text with
    | [] => inr []
    | _ :: _ => inr (text ++ [NEWLINE])
    end
  else inl CharNotPrinted.

Definition invocation (args : list str) : process_env :=
  {| sys_argv := lit "main.py" :: args;
     os_environ := [];
     config_files := [];
     stdout_encoding := UTF_8 |}.

(** The same command line in a process started with
    [PYTHONIOENCODING=utf-16-le]. *)
Definition utf16_invocation (args : list str) : process_env :=
  {| sys_argv := lit "main.py" :: args;
     os_environ := [(lit "PYTHONIOENCODING", lit "utf-16-le")];
     config_files := [];
     stdout_encoding := UTF_16_LE |}.

Arguments IndexError {fault}.
Arguments UnicodeEncodeError {fault}.
Arguments RenderingFault {fault} e.
Arguments stdout {fault} o.
Arguments exit_status {fault} o.
Arguments uncaught {fault} o.
Arguments result {fault} o.
Arguments rendered {fault} o.
Arguments run {fault} figlet_format env.
Arguments exec {fault} figlet_format env.
Arguments main {fault} figlet_format env.
Arguments stdout_bytes {fault} figlet_format env.
Arguments renderer_calls {fault} figlet_format env.
Arguments observe {fault} figlet_format env.
Arguments reference {fault} figlet_format argv.

End Script.

(** * Properties *)

Import PyStr Json Script.

(** ** Bit arithmetic and hexadecimal formatting *)

Lemma lor_shiftl_10 (hi lo : N) :
  lo < 1024 -> N.lor (N.shiftl hi 10) lo = hi * 1024 + lo.
Proof.
  intros Hlo.
  rewrite N.shiftl_mul_pow2. change (2 ^ 10) with 1024.
  assert (Hdisj : N.land (hi * 1024) lo = 0).
  { apply N.bits_inj. intro i.
    rewrite N.land_spec, N.bits_0.
    destruct (N.lt_ge_cases i 10) as [Hi | Hi].
    - change 1024 with (2 ^ 10).
      rewrite N.mul_pow2_bits_low by exact Hi. reflexivity.
    - rewrite <- (N.mod_small lo (2 ^ 10)) by exact Hlo.
      rewrite N.mod_pow2_bits_high by exact Hi.
      apply andb_false_r. }
  rewrite <- N.lxor_lor by exact Hdisj.
  symmetry. apply N.add_nocarry_lxor. exact Hdisj.
Qed.

Lemma in_below (bound n : N) : n < bound -> In n (below bound).
Proof.
  unfold below. induction bound as [| b IH] using N.peano_ind; intros H.
  - lia.
  - rewrite N.recursion_succ
      by (reflexivity || (intros ? ? -> ? ? ->; reflexivity)).
    destruct (N.eq_dec n b) as [-> | Hne].
    + left. reflexivity.
    + right. apply IH. lia.
Qed.

Lemma format_04x_check_all : forallb format_04x_check (below 65536) = true.
Proof. vm_compute. reflexivity. Qed.

Lemma format_04x_checked (n : N) : n < 0x10000 -> format_04x_check n = true.
Proof.
  intros H.
  apply (proj1 (forallb_forall format_04x_check (below 65536))
               format_04x_check_all).
  apply in_below. exact H.
Qed.

Lemma format_04x_spec (n : N) :
  n < 0x10000 ->
  exists a b c d,
    format_04x n = [a; b; c; d]
    /\ Forall (fun x => is_lower_hex x = true) [a; b; c; d]
    /\ forall rest, _decode_uXXXX (a :: b :: c :: d :: rest) = Some n.
Proof.
  intros H. pose proof (format_04x_checked n H) as Hc.
  unfold format_04x_check in Hc.
  destruct (format_04x n) as [| a [| b [| c [| d [| e l]]]]];
    try discriminate Hc.
  exists a, b, c, d.
  repeat rewrite andb_true_iff in Hc.
  destruct Hc as [[[[Ha Hb] Hc] Hd] Hdec].
  split; [reflexivity |]. split.
  - repeat constructor; assumption.
  - intros rest. unfold _decode_uXXXX in *.
    destruct (hex_value a), (hex_value b), (hex_value c), (hex_value d);
      try discriminate Hdec.
    apply N.eqb_eq in Hdec. rewrite Hdec. reflexivity.
Qed.

Lemma lor_d800 (y : N) : y < 1024 -> N.lor 0xd800 y = 0xd800 + y.
Proof.
  intros H. change 0xd800 with (N.shiftl 54 10) at 1.
  rewrite lor_shiftl_10 by exact H. reflexivity.
Qed.

Lemma lor_dc00 (y : N) : y < 1024 -> N.lor 0xdc00 y = 0xdc00 + y.
Proof.
  intros H. change 0xdc00 with (N.shiftl 55 10) at 1.
  rewrite lor_shiftl_10 by exact H. reflexivity.
Qed.

Lemma land_3ff (x : N) : N.land x 0x3ff = x mod 1024.
Proof. change 0x3ff with (N.ones 10). rewrite N.land_ones. reflexivity. Qed.

Lemma shiftr_10 (x : N) : N.shiftr x 10 = x / 1024.
Proof. rewrite N.shiftr_div_pow2. reflexivity. Qed.

Lemma enc_shape_ok (c : codepoint) :
  enc_shape c (sub_one c).
Proof.
  unfold sub_one, ESCAPE_ASCII, replace, ESCAPE_DCT, QUOTE, BACKSLASH.
  cbv zeta.
  destruct (N.eqb_spec c 92) as [-> | H92].
  { apply (shape_short _ 92); reflexivity || discriminate. }
  destruct (N.eqb_spec c 34) as [-> | H34].
  { apply (shape_short _ 34); reflexivity || discriminate. }
  cbn [orb].
  destruct (N.leb_spec 32 c) as [Hlo | Hlo]; cbn [andb negb].
  - destruct (N.leb_spec c 126) as [Hhi | Hhi]; cbn [negb].
    + apply shape_plain; unfold printable, QUOTE, BACKSLASH; try assumption.
      apply andb_true_iff. split; apply N.leb_le; assumption.
    + assert (Hnp : printable c = false).
      { unfold printable. apply andb_false_iff. right.
        apply N.leb_gt. exact Hhi. }
      destruct (N.eqb_spec c 8); [lia |].
      destruct (N.eqb_spec c 12); [lia |].
      destruct (N.eqb_spec c 10); [lia |].
      destruct (N.eqb_spec c 13); [lia |].
      destruct (N.eqb_spec c 9); [lia |].
      destruct (N.ltb_spec c 0x20); [lia |].
      destruct (N.ltb_spec c 0x10000) as [Hb | Hb].
      * apply shape_u; assumption.
      * set (m := c - 0x10000).
        rewrite !land_3ff, shiftr_10.
        assert (H1 : (m / 1024) mod 1024 < 1024) by (apply N.mod_lt; discriminate).
        assert (H2 : m mod 1024 < 1024) by (apply N.mod_lt; discriminate).
        rewrite (lor_d800 _ H1), (lor_dc00 _ H2).
        assert (Hjoin : c < 0x110000 ->
                        ((m / 1024) mod 1024) * 1024 + m mod 1024 = m).
        { intros Hv.
          assert (Hm : m / 1024 < 1024).
          { apply N.Div0.div_lt_upper_bound. unfold m. lia. }
          rewrite (N.mod_small _ _ Hm).
          pose proof (N.div_mod m 1024) as Hdm.
          rewrite (N.mul_comm (m / 1024) 1024). symmetry. apply Hdm.
          discriminate. }
        assert (Hmc : 0x10000 + m = c) by (unfold m; lia).
        clearbody m.
        set (hi := (m / 1024) mod 1024) in *.
        set (lo := m mod 1024) in *.
        clearbody hi lo.
        apply shape_pair.
        -- exact Hb.
        -- unfold is_high_surrogate. apply andb_true_iff.
           split; apply N.leb_le; lia.
        -- unfold is_low_surrogate. apply andb_true_iff.
           split; apply N.leb_le; lia.
        -- intros Hv. unfold join_pair.
           replace (0xd800 + hi - 0xd800) with hi by lia.
           replace (0xdc00 + lo - 0xdc00) with lo by lia.
           rewrite lor_shiftl_10 by exact H2.
           rewrite (Hjoin Hv). exact Hmc.
  - assert (Hnp : printable c = false).
    { unfold printable. apply andb_false_iff. left.
      apply N.leb_gt. exact Hlo. }
    destruct (N.eqb_spec c 8) as [-> | ?].
    { apply (shape_short _ 98); reflexivity || discriminate. }
    destruct (N.eqb_spec c 12) as [-> | ?].
    { apply (shape_short _ 102); reflexivity || discriminate. }
    destruct (N.eqb_spec c 10) as [-> | ?].
    { apply (shape_short _ 110); reflexivity || discriminate. }
    destruct (N.eqb_spec c 13) as [-> | ?].
    { apply (shape_short _ 114); reflexivity || discriminate. }
    destruct (N.eqb_spec c 9) as [-> | ?].
    { apply (shape_short _ 116); reflexivity || discriminate. }
    destruct (N.ltb_spec c 0x20); [| lia].
    apply shape_u; [lia | exact Hnp].
Qed.

(** ** The decoder reads back what the encoder writes *)

(** At a backslash followed by [u]: the tests of the scanner's head are
    decided. *)
Ltac at_backslash_u :=
  change (lit "\u") with [BACKSLASH; 117];
  cbn [starts_with];
  change (BACKSLASH =? BACKSLASH) with true;
  change (117 =? 117) with true;
  cbv iota; cbn [andb].

Lemma scan_plain (c : codepoint) (X : str) :
  printable c = true -> c <> QUOTE -> c <> BACKSLASH ->
  py_scanstring (c :: X) = append_char (Some c) (py_scanstring X).
Proof.
  intros Hp Hq Hb. cbn [py_scanstring].
  rewrite (proj2 (N.eqb_neq c QUOTE) Hq), (proj2 (N.eqb_neq c BACKSLASH) Hb).
  unfold printable in Hp. apply andb_true_iff in Hp. destruct Hp as [Hp _].
  apply N.leb_le in Hp.
  destruct (N.ltb_spec c 0x20); [lia | reflexivity].
Qed.

Lemma scan_short (x : codepoint) (X : str) :
  x <> 117 ->
  py_scanstring (BACKSLASH :: x :: X)
  = append_char (BACKSLASH_DCT x) (py_scanstring X).
Proof.
  intros Hx. cbn [py_scanstring].
  change (BACKSLASH =? QUOTE) with false.
  change (BACKSLASH =? BACKSLASH) with true. cbv iota.
  rewrite (proj2 (N.eqb_neq x 117) Hx). reflexivity.
Qed.

Lemma scan_u (n : N) (X : str) :
  n < 0x10000 ->
  py_scanstring (lit "\u" ++ format_04x n ++ X)
  = if is_high_surrogate n && starts_with (lit "\u") X then
      match X with
      | _ :: _ :: (_ :: _ :: _ :: _ :: s4) as digits =>
          match _decode_uXXXX digits with
          | Some uni2 =>
              if is_low_surrogate uni2
              then append_char (chr (join_pair n uni2)) (py_scanstring s4)
              else append_char (chr n) (py_scanstring X)
          | None => None
          end
      | _ => None
      end
    else append_char (chr n) (py_scanstring X).
Proof.
  intros Hn.
  destruct (format_04x_spec n Hn) as (a & b & c & d & Hfmt & _ & Hdec).
  rewrite Hfmt.
  change (lit "\u" ++ [a; b; c; d] ++ X)
    with (BACKSLASH :: 117 :: a :: b :: c :: d :: X).
  cbn [py_scanstring].
  change (BACKSLASH =? QUOTE) with false.
  change (BACKSLASH =? BACKSLASH) with true.
  change (117 =? 117) with true. cbv iota. cbn [negb].
  rewrite Hdec. reflexivity.
Qed.

Lemma escape_sub_cons (c : codepoint) (s : str) :
  escape_sub (c :: s)
  = (sub_one c) ++ escape_sub s.
Proof. reflexivity. Qed.

Lemma high_bounds (c : N) :
  is_high_surrogate c = true -> 0xd800 <= c /\ c <= 0xdbff.
Proof.
  unfold is_high_surrogate. rewrite andb_true_iff, !N.leb_le. tauto.
Qed.

Lemma low_bounds (c : N) :
  is_low_surrogate c = true -> 0xdc00 <= c /\ c <= 0xdfff.
Proof.
  unfold is_low_surrogate. rewrite andb_true_iff, !N.leb_le. tauto.
Qed.

Lemma not_high (c : N) :
  c < 0xd800 \/ 0xdbff < c -> is_high_surrogate c = false.
Proof.
  intros H. unfold is_high_surrogate. apply andb_false_iff.
  rewrite !N.leb_gt. tauto.
Qed.

Lemma not_low (c : N) :
  c < 0xdc00 \/ 0xdfff < c -> is_low_surrogate c = false.
Proof.
  intros H. unfold is_low_surrogate. apply andb_false_iff.
  rewrite !N.leb_gt. tauto.
Qed.

Lemma printable_bounds (c : N) : printable c = true -> 32 <= c /\ c <= 126.
Proof. unfold printable. rewrite andb_true_iff, !N.leb_le. tauto. Qed.

Lemma chr_in_range (n : N) : n < 0x110000 -> chr n = Some n.
Proof.
  intros H. unfold chr, in_unicode_range.
  rewrite (proj2 (N.ltb_lt _ _) H). reflexivity.
Qed.

Lemma join_pair_range (hi lo : N) :
  is_high_surrogate hi = true -> is_low_surrogate lo = true ->
  0x10000 <= join_pair hi lo /\ join_pair hi lo < 0x110000.
Proof.
  intros Hh Hl. apply high_bounds in Hh. apply low_bounds in Hl.
  unfold join_pair. rewrite lor_shiftl_10 by lia. lia.
Qed.

Lemma join_surrogates_cons (c : codepoint) (s : str) :
  is_high_surrogate c = false ->
  join_surrogates (c :: s) = c :: join_surrogates s.
Proof.
  intros H. destruct s as [| c2 s]; [reflexivity |].
  cbn [join_surrogates]. rewrite H. reflexivity.
Qed.

Lemma join_surrogates_high (c c2 : codepoint) (s : str) :
  is_high_surrogate c = true ->
  join_surrogates (c :: c2 :: s)
  = if is_low_surrogate c2
    then join_pair c c2 :: join_surrogates s
    else c :: join_surrogates (c2 :: s).
Proof. intros H. cbn [join_surrogates]. rewrite H. reflexivity. Qed.

(** What the scanner does after a high surrogate [n], in front of the
    escaped rest of the string. *)
Lemma scan_after_high (n : N) (s : str) (tl : str) :
  let X := escape_sub s ++ QUOTE :: tl in
  (if starts_with (lit "\u") X then
     match X with
     | _ :: _ :: (_ :: _ :: _ :: _ :: s4) as digits =>
         match _decode_uXXXX digits with
         | Some uni2 =>
             if is_low_surrogate uni2
             then append_char (chr (join_pair n uni2)) (py_scanstring s4)
             else append_char (chr n) (py_scanstring X)
         | None => None
         end
     | _ => None
     end
   else append_char (chr n) (py_scanstring X))
  = match s with
    | c2 :: s' =>
        if is_low_surrogate c2
        then append_char (chr (join_pair n c2))
               (py_scanstring (escape_sub s' ++ QUOTE :: tl))
        else append_char (chr n) (py_scanstring X)
    | [] => append_char (chr n) (py_scanstring X)
    end.
Proof.
  intros X. subst X.
  destruct s as [| c2 s']; [reflexivity |].
  rewrite escape_sub_cons, <- app_assoc.
  destruct (enc_shape_ok c2) as [Hp Hq Hb | x Hp Hx Hd Hc | Hc Hp | s1 s2 Hc H1 H2 _].
  - (* kept as it is *)
    apply printable_bounds in Hp.
    rewrite (not_low c2) by lia.
    change (lit "\u") with [BACKSLASH; 117].
    cbn [app starts_with].
    rewrite (proj2 (N.eqb_neq BACKSLASH c2)) by congruence.
    reflexivity.
  - (* two-character escape *)
    rewrite (not_low c2) by lia.
    cbn [app]. change (lit "\u") with [BACKSLASH; 117].
    cbn [starts_with].
    rewrite (proj2 (N.eqb_neq 117 x)) by congruence.
    rewrite andb_false_r. reflexivity.
  - (* one \u escape *)
    destruct (format_04x_spec c2 Hc) as (a & b & c & d & Hfmt & _ & Hdec).
    rewrite Hfmt.
    change ((lit "\u" ++ [a; b; c; d]) ++ escape_sub s' ++ QUOTE :: tl)
      with (BACKSLASH :: 117 :: a :: b :: c :: d
              :: escape_sub s' ++ QUOTE :: tl).
    at_backslash_u.
    rewrite Hdec. reflexivity.
  - (* surrogate pair: the first escape is a high surrogate *)
    pose proof (high_bounds _ H1) as Hb1.
    assert (Hs1 : s1 < 0x10000) by lia.
    destruct (format_04x_spec s1 Hs1) as (a & b & c & d & Hfmt & _ & Hdec).
    rewrite Hfmt.
    rewrite (not_low c2) by lia.
    set (Y := lit "\u" ++ format_04x s2).
    change ((lit "\u" ++ [a; b; c; d] ++ Y) ++ escape_sub s' ++ QUOTE :: tl)
      with (BACKSLASH :: 117 :: a :: b :: c :: d
              :: Y ++ escape_sub s' ++ QUOTE :: tl).
    at_backslash_u.
    rewrite Hdec.
    rewrite (not_low s1) by lia. reflexivity.
Qed.

Lemma valid_str_cons (c : codepoint) (s : str) :
  valid_str (c :: s) = true -> c < 0x110000 /\ valid_str s = true.
Proof.
  unfold valid_str. cbn [forallb]. rewrite andb_true_iff.
  unfold in_unicode_range. rewrite N.ltb_lt. tauto.
Qed.

Lemma scanstring_escape_sub_bounded (k : nat) :
  forall (s tl : str),
    (length s <= k)%nat -> valid_str s = true ->
    py_scanstring (escape_sub s ++ QUOTE :: tl)
    = Some (join_surrogates s, tl).
Proof.
  induction k as [| k IH]; intros s tl Hlen Hv.
  - destruct s; [reflexivity | cbn in Hlen; lia].
  - destruct s as [| c s]; [reflexivity |].
    cbn [length] in Hlen.
    apply valid_str_cons in Hv. destruct Hv as [Hc Hv].
    assert (IHs : py_scanstring (escape_sub s ++ QUOTE :: tl)
                  = Some (join_surrogates s, tl)).
    { apply IH; [lia | exact Hv]. }
    rewrite escape_sub_cons, <- app_assoc.
    destruct (enc_shape_ok c) as
      [Hp Hq Hb | x Hp Hx Hd Hlt | Hlt Hp | s1 s2 Hge H1 H2 Hj].
    + (* kept as it is *)
      cbn [app]. rewrite scan_plain by assumption.
      rewrite IHs. apply printable_bounds in Hp.
      rewrite join_surrogates_cons by (apply not_high; lia).
      reflexivity.
    + (* two-character escape *)
      cbn [app]. rewrite scan_short by exact Hx.
      rewrite IHs, Hd.
      rewrite join_surrogates_cons by (apply not_high; lia).
      reflexivity.
    + (* one \u escape *)
      rewrite <- app_assoc, scan_u by exact Hlt.
      destruct (is_high_surrogate c) eqn:Hhigh; cbn [andb].
      * rewrite (scan_after_high c s tl), (chr_in_range c Hc).
        destruct s as [| c2 s'].
        -- rewrite IHs. reflexivity.
        -- rewrite (join_surrogates_high c c2 s' Hhigh).
           destruct (is_low_surrogate c2) eqn:Hlow.
           ++ destruct (join_pair_range c c2 Hhigh Hlow) as [_ Hr].
              rewrite (chr_in_range _ Hr).
              rewrite IH.
              ** reflexivity.
              ** cbn [length] in Hlen. lia.
              ** apply valid_str_cons in Hv. tauto.
           ++ rewrite IHs. reflexivity.
      * rewrite (chr_in_range c Hc), IHs.
        rewrite join_surrogates_cons by exact Hhigh. reflexivity.
    + (* surrogate pair *)
      pose proof (high_bounds _ H1) as Hb1.
      pose proof (low_bounds _ H2) as Hb2.
      rewrite <- !app_assoc.
      rewrite scan_u by lia.
      rewrite H1.
      destruct (format_04x_spec s2) as (a & b & c' & d & Hfmt & _ & Hdec);
        [lia |].
      rewrite Hfmt.
      change (lit "\u" ++ [a; b; c'; d] ++ escape_sub s ++ QUOTE :: tl)
        with (BACKSLASH :: 117 :: a :: b :: c' :: d
                :: escape_sub s ++ QUOTE :: tl).
      at_backslash_u.
      rewrite Hdec, H2.
      rewrite (Hj Hc), (chr_in_range c Hc), IHs.
      rewrite join_surrogates_cons by (apply not_high; lia).
      reflexivity.
Qed.

Lemma scanstring_escape_sub (s tl : str) :
  valid_str s = true ->
  py_scanstring (escape_sub s ++ QUOTE :: tl) = Some (join_surrogates s, tl).
Proof. apply (scanstring_escape_sub_bounded (length s)). apply le_n. Qed.

(** *** Encoding a surrogate, and a joined pair *)

Lemma sub_one_surrogate (c : codepoint) :
  0xd800 <= c <= 0xdfff -> sub_one c = lit "\u" ++ format_04x c.
Proof.
  intros Hc.
  destruct (enc_shape_ok c) as
    [Hp Hq Hb | x Hp Hx Hd Hlt | Hlt Hp | s1 s2 Hge H1 H2 Hj].
  - apply printable_bounds in Hp. lia.
  - lia.
  - reflexivity.
  - lia.
Qed.

Lemma join_pair_eq (hi lo : N) :
  is_high_surrogate hi = true -> is_low_surrogate lo = true ->
  join_pair hi lo = 0x10000 + (hi - 0xd800) * 1024 + (lo - 0xdc00).
Proof.
  intros Hh Hl. apply high_bounds in Hh. apply low_bounds in Hl.
  unfold join_pair. rewrite lor_shiftl_10 by lia. lia.
Qed.

Lemma sub_one_join_pair (hi lo : codepoint) :
  is_high_surrogate hi = true -> is_low_surrogate lo = true ->
  sub_one (join_pair hi lo) = sub_one hi ++ sub_one lo.
Proof.
  intros Hh Hl.
  pose proof (join_pair_range hi lo Hh Hl) as [Hge Hlt].
  pose proof (join_pair_eq hi lo Hh Hl) as Heq.
  pose proof (high_bounds _ Hh) as Hbh.
  pose proof (low_bounds _ Hl) as Hbl.
  rewrite (sub_one_surrogate hi) by lia.
  rewrite (sub_one_surrogate lo) by lia.
  destruct (enc_shape_ok (join_pair hi lo)) as
    [Hp Hq Hb | x Hp Hx Hd Hc | Hc Hp | s1 s2 _ H1 H2 Hj].
  - apply printable_bounds in Hp. lia.
  - lia.
  - lia.
  - specialize (Hj Hlt).
    rewrite (join_pair_eq s1 s2 H1 H2), Heq in Hj.
    apply high_bounds in H1. apply low_bounds in H2.
    assert (s1 = hi) by lia. assert (s2 = lo) by lia. subst s1 s2.
    rewrite <- app_assoc. reflexivity.
Qed.

Lemma escape_sub_join_bounded (k : nat) :
  forall s : str,
    (length s <= k)%nat ->
    escape_sub (join_surrogates s) = escape_sub s.
Proof.
  induction k as [| k IH]; intros s Hlen.
  - destruct s; [reflexivity | cbn in Hlen; lia].
  - destruct s as [| c s]; [reflexivity |].
    cbn [length] in Hlen.
    destruct (is_high_surrogate c) eqn:Hhigh.
    + destruct s as [| c2 s']; [reflexivity |].
      rewrite (join_surrogates_high c c2 s' Hhigh).
      cbn [length] in Hlen.
      destruct (is_low_surrogate c2) eqn:Hlow.
      * rewrite !escape_sub_cons, (sub_one_join_pair c c2 Hhigh Hlow).
        rewrite IH by lia. rewrite <- app_assoc. reflexivity.
      * rewrite escape_sub_cons, IH by (cbn [length]; lia).
        reflexivity.
    + rewrite (join_surrogates_cons c s Hhigh), !escape_sub_cons.
      rewrite IH by lia. reflexivity.
Qed.

Lemma escape_sub_join (s : str) :
  escape_sub (join_surrogates s) = escape_sub s.
Proof. apply (escape_sub_join_bounded (length s)). apply le_n. Qed.

Lemma join_surrogates_nil_iff (s : str) : join_surrogates s = [] <-> s = [].
Proof.
  split.
  - destruct s as [| c [| c2 s]]; cbn [join_surrogates];
      try reflexivity; try discriminate.
    destruct (is_high_surrogate c && is_low_surrogate c2); discriminate.
  - intros ->. reflexivity.
Qed.

Lemma join_surrogates_scalar (s : str) :
  forallb (fun c => negb (is_surrogate c)) s = true ->
  join_surrogates s = s.
Proof.
  induction s as [| c s IH]; [reflexivity |].
  cbn [forallb]. rewrite andb_true_iff, negb_true_iff.
  unfold is_surrogate. rewrite orb_false_iff.
  intros [[Hh _] Hs].
  rewrite (join_surrogates_cons c s Hh), (IH Hs). reflexivity.
Qed.

(** *** The escaped text is printable ASCII *)

Lemma lower_hex_printable (c : codepoint) :
  is_lower_hex c = true -> printable c = true.
Proof.
  unfold is_lower_hex, printable.
  rewrite orb_true_iff, !andb_true_iff, !N.leb_le. lia.
Qed.

Lemma format_04x_printable (n : N) :
  n < 0x10000 -> Forall (fun c => printable c = true) (format_04x n).
Proof.
  intros H.
  destruct (format_04x_spec n H) as (a & b & c & d & -> & Hhex & _).
  eapply Forall_impl; [| exact Hhex].
  intros x. apply lower_hex_printable.
Qed.

Lemma sub_one_printable (c : codepoint) :
  Forall (fun x => printable x = true) (sub_one c).
Proof.
  destruct (enc_shape_ok c) as
    [Hp Hq Hb | x Hp Hx Hd Hlt | Hlt Hp | s1 s2 Hge H1 H2 Hj].
  - constructor; [exact Hp | constructor].
  - constructor; [reflexivity |]. constructor; [exact Hp | constructor].
  - apply Forall_app. split.
    + repeat constructor.
    + apply format_04x_printable. exact Hlt.
  - apply high_bounds in H1. apply low_bounds in H2.
    apply Forall_app. split; [repeat constructor |].
    apply Forall_app. split; [apply format_04x_printable; lia |].
    apply Forall_app. split; [repeat constructor |].
    apply format_04x_printable. lia.
Qed.

Lemma escape_sub_printable (s : str) :
  Forall (fun x => printable x = true) (escape_sub s).
Proof.
  induction s as [| c s IH]; [constructor |].
  rewrite escape_sub_cons. apply Forall_app. split.
  - apply sub_one_printable.
  - exact IH.
Qed.

Lemma utf8_encode_ascii (s : str) :
  Forall (fun c => c < 0x80) s -> utf8_encode s = Some s.
Proof.
  induction 1 as [| c s Hc _ IH]; [reflexivity |].
  cbn [utf8_encode]. unfold utf8_encode_char.
  rewrite (proj2 (N.ltb_lt _ _) Hc), IH. reflexivity.
Qed.

(** ** The serialized object *)

Lemma dumps_object (art : str) :
  dumps (ascii_art_object art)
  = document_head ++ escape_sub art ++ document_tail.
Proof.
  unfold dumps, ascii_art_object.
  cbn [iterencode map sep_join fst snd].
  unfold py_encode_basestring_ascii.
  change (escape_sub (lit "ascii_art")) with (lit "ascii_art").
  unfold document_head, document_tail, key_separator.
  change (lit "{") with [123]. change (lit "}") with [125].
  change (lit ": ") with [58; 32].
  change (lit "ascii_art") with [97; 115; 99; 105; 105; 95; 97; 114; 116].
  cbn [app]. rewrite <- !app_assoc. reflexivity.
Qed.

Lemma scan_once_string (fuel : nat) (X rest v : str) :
  py_scanstring X = Some (v, rest) ->
  scan_once (S fuel) (QUOTE :: X) = Some (JStr v, rest).
Proof.
  intros H. cbn [scan_once].
  change (QUOTE =? QUOTE) with true. cbv iota. rewrite H. reflexivity.
Qed.

Lemma scan_once_object (fuel : nat) (X : str) :
  scan_once (S fuel) (123 :: QUOTE :: X) = object_loop fuel [] X.
Proof. reflexivity. Qed.

Lemma object_loop_last (fuel : nat) (pairs : list (str * value))
    (X Y rest key : str) (v : value) :
  py_scanstring X = Some (key, 58 :: Y) ->
  scan_once fuel (skip_WHITESPACE Y) = Some (v, 125 :: rest) ->
  object_loop (S fuel) pairs X
  = Some (JDict (dict (pairs ++ [(key, v)])), rest).
Proof.
  intros Hkey Hval. cbn [object_loop].
  rewrite Hkey. cbn [skip_WHITESPACE].
  change (in_WHITESPACE_STR 58) with false. cbv iota.
  change (58 =? 58) with true. cbv iota.
  rewrite Hval. cbn [skip_WHITESPACE].
  change (in_WHITESPACE_STR 125) with false. cbv iota.
  change (125 =? 125) with true. cbv iota. reflexivity.
Qed.

Lemma document_text (art tl : str) :
  dumps (ascii_art_object art) ++ tl
  = 123 :: QUOTE
      :: escape_sub (lit "ascii_art")
      ++ QUOTE :: 58 :: 32 :: QUOTE :: escape_sub art ++ QUOTE :: 125 :: tl.
Proof.
  rewrite dumps_object.
  unfold document_head, document_tail.
  change (escape_sub (lit "ascii_art")) with (lit "ascii_art").
  change (lit "{") with [123]. change (lit "}") with [125].
  change (lit ": ") with [58; 32].
  change (lit "ascii_art") with [97; 115; 99; 105; 105; 95; 97; 114; 116].
  cbn [app]. rewrite <- !app_assoc. reflexivity.
Qed.

Lemma loads_document (art tl : str) :
  valid_str art = true -> skip_WHITESPACE tl = [] ->
  loads (dumps (ascii_art_object art) ++ tl)
  = Some (ascii_art_object (join_surrogates art)).
Proof.
  intros Hv Hws.
  rewrite document_text.
  set (Y := escape_sub art ++ QUOTE :: 125 :: tl).
  set (X := escape_sub (lit "ascii_art") ++ QUOTE :: 58 :: 32 :: QUOTE :: Y).
  unfold loads. cbn [starts_with].
  change (0xfeff =? 123) with false. cbn [andb].
  unfold decode. cbn [length].
  cbn [skip_WHITESPACE]. change (in_WHITESPACE_STR 123) with false. cbv iota.
  rewrite scan_once_object.
  rewrite (object_loop_last _ [] X (32 :: QUOTE :: Y) tl
             (lit "ascii_art") (JStr (join_surrogates art))).
  - rewrite Hws. reflexivity.
  - subst X. apply (scanstring_escape_sub (lit "ascii_art")). reflexivity.
  - cbn [skip_WHITESPACE]. change (in_WHITESPACE_STR 32) with true.
    change (in_WHITESPACE_STR QUOTE) with false. cbv iota.
    apply scan_once_string. subst Y. apply scanstring_escape_sub. exact Hv.
Qed.

(** ** The script *)

Lemma printable_ascii (c : codepoint) : printable c = true -> c < 0x80.
Proof. intros H. apply printable_bounds in H. lia. Qed.

Lemma printable_not_newline (s : str) :
  Forall (fun c => printable c = true) s -> ~ In NEWLINE s.
Proof.
  intros H Hin. rewrite Forall_forall in H.
  specialize (H _ Hin). discriminate H.
Qed.

Lemma dumps_object_printable (art : str) :
  Forall (fun c => printable c = true) (dumps (ascii_art_object art)).
Proof.
  rewrite dumps_object. apply Forall_app. split.
  - repeat constructor.
  - apply Forall_app. split.
    + apply escape_sub_printable.
    + repeat constructor.
Qed.

Lemma utf8_encode_printable (s : str) :
  Forall (fun c => printable c = true) s -> utf8_encode s = Some s.
Proof.
  intros H. apply utf8_encode_ascii.
  eapply Forall_impl; [| exact H]. apply printable_ascii.
Qed.

(** *** ASCII text under the codecs of a stream *)

Lemma forallb_below (bound : N) (s : str) :
  Forall (fun c => c < bound) s -> forallb (fun c => c <? bound) s = true.
Proof.
  intros H. apply forallb_forall. rewrite Forall_forall in H.
  intros c Hc. apply N.ltb_lt. exact (H c Hc).
Qed.

Lemma utf16_le_encode_ascii (s : str) :
  Forall (fun c => c < 0x80) s ->
  utf16_le_encode s = Some (flat_map le_bytes s).
Proof.
  induction 1 as [| c s Hc _ IH]; [reflexivity |].
  cbn [utf16_le_encode flat_map]. unfold utf16_units.
  destruct (N.ltb_spec c 0x10000) as [_ | Hge]; [| lia].
  assert (Hs : is_surrogate c = false).
  { unfold is_surrogate. rewrite (not_high c), (not_low c) by lia.
    reflexivity. }
  rewrite Hs, IH. cbn [flat_map app]. reflexivity.
Qed.

(** Under every codec ASCII text can be encoded. *)
Lemma encode_ascii_some (enc : codec) (s : str) :
  Forall (fun c => c < 0x80) s -> exists bytes, encode enc s = Some bytes.
Proof.
  intros H. destruct enc; cbn [encode].
  - exists s. apply utf8_encode_ascii. exact H.
  - exists s. unfold ascii_encode. rewrite (forallb_below 0x80 s H).
    reflexivity.
  - exists s. unfold latin1_encode. rewrite (forallb_below 0x100 s).
    + reflexivity.
    + eapply Forall_impl; [| exact H]. intros c Hc. cbv beta in *. lia.
  - eexists. apply utf16_le_encode_ascii. exact H.
Qed.

(** Under the codecs that extend ASCII it is its own encoding. *)
Lemma encode_ascii_text (enc : codec) (s : str) :
  ascii_compatible enc = true ->
  Forall (fun c => c < 0x80) s -> encode enc s = Some s.
Proof.
  intros Hc H. destruct enc; try discriminate Hc; cbn [encode].
  - apply utf8_encode_ascii. exact H.
  - unfold ascii_encode. rewrite (forallb_below 0x80 s H). reflexivity.
  - unfold latin1_encode. rewrite (forallb_below 0x100 s).
    + reflexivity.
    + eapply Forall_impl; [| exact H]. intros c Hb. cbv beta in *. lia.
Qed.

Lemma printable_below_0x80 (s : str) :
  Forall (fun c => printable c = true) s -> Forall (fun c => c < 0x80) s.
Proof. apply Forall_impl. apply printable_ascii. Qed.

Lemma printed_line_ascii (s : str) :
  Forall (fun c => printable c = true) s ->
  Forall (fun c => c < 0x80) (s ++ [NEWLINE]).
Proof.
  intros H. apply Forall_app. split.
  - apply printable_below_0x80. exact H.
  - repeat constructor.
Qed.

Lemma list_getitem_1 {A : Type} (l : list A) :
  list_getitem l 1 = nth_error l 1.
Proof.
  destruct l as [| a [| b l]]; try reflexivity.
  unfold list_getitem. change (1 <? 0)%Z with false. cbv iota.
  change (Z.to_nat 1) with 1%nat.
  destruct (Z.leb_spec (Z.of_nat (length (a :: b :: l))) 1) as [H | H].
  - cbn [length] in H. lia.
  - reflexivity.
Qed.

Section Facts.

Variable fault : Type.
Variable figlet_format : str -> fault + str.

(** [print] of printable text, from any state. *)
Lemma print_printable (s : str) (w : world) :
  Forall (fun c => printable c = true) s ->
  print fault s w
  = (inr tt,
     {| sys_stdout :=
          {| encoding := encoding (sys_stdout w);
             written := (written (sys_stdout w) ++ s) ++ [NEWLINE] |};
        figlet_calls := figlet_calls w |}).
Proof.
  intros Hp. unfold print, bind, write.
  destruct (encode_ascii_some (encoding (sys_stdout w)) s
              (printable_below_0x80 s Hp)) as [b1 ->].
  cbn [sys_stdout encoding written figlet_calls].
  destruct (encode_ascii_some (encoding (sys_stdout w)) [NEWLINE])
    as [b2 ->]; [repeat constructor |].
  reflexivity.
Qed.

(** The module body, case by case. *)
Lemma main_cases (env : process_env) (w : world) :
  main figlet_format env w
  = match nth_error (sys_argv env) 1 with
    | None => (inl IndexError, w)
    | Some text =>
        match figlet_format text with
        | inl e =>
            (inl (RenderingFault e),
             {| sys_stdout := sys_stdout w;
                figlet_calls := figlet_calls w ++ [text] |})
        | inr ascii_art =>
            (inr tt,
             {| sys_stdout :=
                  {| encoding := encoding (sys_stdout w);
                     written :=
                       (written (sys_stdout w)
                        ++ dumps (ascii_art_object ascii_art))
                       ++ [NEWLINE] |};
                figlet_calls := figlet_calls w ++ [text] |})
        end
    end.
Proof.
  unfold main, argv_getitem. rewrite list_getitem_1.
  destruct (nth_error (sys_argv env) 1) as [text |]; [| reflexivity].
  unfold bind at 1. unfold ret at 1.
  unfold bind at 1. unfold call_figlet_format.
  destruct (figlet_format text) as [e | art]; [reflexivity |].
  fold (ascii_art_object art).
  rewrite (print_printable _ _ (dumps_object_printable art)).
  reflexivity.
Qed.

Lemma run_cases (env : process_env) :
  run figlet_format env
  = match nth_error (sys_argv env) 1 with
    | None =>
        {| stdout := []; exit_status := 1; uncaught := Some IndexError |}
    | Some text =>
        match figlet_format text with
        | inl e =>
            {| stdout := []; exit_status := 1;
               uncaught := Some (RenderingFault e) |}
        | inr ascii_art =>
            {| stdout := dumps (ascii_art_object ascii_art) ++ [NEWLINE];
               exit_status := 0; uncaught := None |}
        end
    end.
Proof.
  unfold run, exec. rewrite main_cases.
  destruct (nth_error (sys_argv env) 1) as [text |]; [| reflexivity].
  destruct (figlet_format text); reflexivity.
Qed.

(** The renderer is called once with [sys.argv[1]] when it exists, also
    when it raises, and not at all otherwise. *)
Lemma renderer_calls_cases (env : process_env) :
  renderer_calls figlet_format env
  = match nth_error (sys_argv env) 1 with
    | None => []
    | Some text => [text]
    end.
Proof.
  unfold renderer_calls, exec. rewrite main_cases.
  destruct (nth_error (sys_argv env) 1) as [text |]; [| reflexivity].
  destruct (figlet_format text); reflexivity.
Qed.

(** The bytes on standard output are the text of the outcome under the
    encoding of the stream. *)
Lemma stdout_bytes_encode (env : process_env) :
  stdout_bytes figlet_format env
  = encode (stdout_encoding env) (stdout (run figlet_format env)).
Proof.
  unfold stdout_bytes, run, exec, stream_bytes. rewrite main_cases.
  destruct (nth_error (sys_argv env) 1) as [text |]; [| reflexivity].
  destruct (figlet_format text); reflexivity.
Qed.

(** The text on standard output is ASCII. *)
Lemma stdout_ascii (env : process_env) :
  Forall (fun c => c < 0x80) (stdout (run figlet_format env)).
Proof.
  rewrite run_cases.
  destruct (nth_error (sys_argv env) 1) as [text |]; [| constructor].
  destruct (figlet_format text) as [e | art]; [constructor |].
  apply printed_line_ascii. apply dumps_object_printable.
Qed.

(** A run that ends with status 0 had a first argument and a rendering
    of it. *)
Lemma run_success (env : process_env) :
  exit_status (run figlet_format env) = 0 ->
  exists text ascii_art,
    nth_error (sys_argv env) 1 = Some text
    /\ figlet_format text = inr ascii_art
    /\ stdout (run figlet_format env)
       = dumps (ascii_art_object ascii_art) ++ [NEWLINE].
Proof.
  rewrite run_cases.
  destruct (nth_error (sys_argv env) 1) as [text |]; [| discriminate].
  destruct (figlet_format text) as [e | art] eqn:Hr; [discriminate |].
  intros _. exists text, art.
  split; [reflexivity |]. split; [exact Hr | reflexivity].
Qed.

End Facts.

(** ** Properties of the script *)

(** *** The sample renderer *)

Lemma printable_valid_str (s : str) :
  forallb printable s = true -> valid_str s = true.
Proof.
  unfold valid_str. rewrite !forallb_forall. intros H c Hc.
  specialize (H c Hc). apply printable_bounds in H.
  unfold in_unicode_range. apply N.ltb_lt. lia.
Qed.

Lemma sample_figlet_valid (s art : str) :
  sample_figlet s = inr art -> valid_str art = true.
Proof.
  unfold sample_figlet.
  destruct (forallb printable s) eqn:Hp; [| discriminate].
  destruct s as [| c s'].
  - intros [= <-]. reflexivity.
  - intros [= <-].
    change (valid_str ((c :: s') ++ [NEWLINE]) = true).
    unfold valid_str. rewrite forallb_app.
    fold (valid_str (c :: s')). rewrite (printable_valid_str _ Hp).
    reflexivity.
Qed.

Lemma sample_figlet_renders (s : str) :
  s <> [] -> forallb printable s = true ->
  exists art,
    sample_figlet s = inr art /\ art <> [] /\ valid_str art = true.
Proof.
  intros Hne Hp. unfold sample_figlet. rewrite Hp.
  destruct s as [| c s']; [contradiction |].
  exists ((c :: s') ++ [NEWLINE]).
  split; [reflexivity |]. split; [discriminate |].
  apply (sample_figlet_valid (c :: s')).
  unfold sample_figlet. rewrite Hp. reflexivity.
Qed.

Section Properties.

Variable fault : Type.
Variable figlet_format : str -> fault + str.

(** C1: invoked with exactly one argument [s], whatever string it is,
    the script applies the renderer to [s], once, and writes to standard
    output the JSON serialization of the object whose single field
    [ascii_art] holds exactly the string the renderer returns for [s],
    followed by the line end of [print], and ends with status 0.  What
    is written is JSON holding that string: [json.loads] reads it as the
    dict with the single key [ascii_art], whose value is the art (with a
    high surrogate and a low surrogate that follows it read as the one
    code point they stand for, so unchanged when the art has no
    surrogates). *)
Theorem one_argument_output (env : process_env) (prog s art : str) :
  sys_argv env = [prog; s] ->
  figlet_format s = inr art ->
  run figlet_format env
  = {| stdout := dumps (JDict [(lit "ascii_art", JStr art)]) ++ [NEWLINE];
       exit_status := 0;
       uncaught := None |}
  /\ renderer_calls figlet_format env = [s]
  /\ (valid_str art = true ->
      loads (stdout (run figlet_format env))
      = Some (JDict [(lit "ascii_art", JStr (join_surrogates art))]))
  /\ (valid_str art = true ->
      forallb (fun c => negb (is_surrogate c)) art = true ->
      loads (stdout (run figlet_format env))
      = Some (JDict [(lit "ascii_art", JStr art)])).
Proof.
  intros Hargv Hart.
  rewrite renderer_calls_cases, run_cases, Hargv. cbn [nth_error].
  rewrite Hart. cbn [stdout].
  assert (Hl : valid_str art = true ->
               loads (dumps (ascii_art_object art) ++ [NEWLINE])
               = Some (ascii_art_object (join_surrogates art))).
  { intros Hv. apply loads_document; [exact Hv | reflexivity]. }
  split; [reflexivity |]. split; [reflexivity |].
  split; [exact Hl |].
  intros Hv Hs. rewrite (Hl Hv), (join_surrogates_scalar art Hs).
  reflexivity.
Qed.

(** C2: invoked without an argument, the script ends with [IndexError]
    raised by [sys.argv[1]], uncaught, with exit status 1, and nothing
    written to standard output. *)
Theorem no_argument_fault (env : process_env) (prog : str) :
  sys_argv env = [prog] ->
  run figlet_format env
  = {| stdout := []; exit_status := 1; uncaught := Some IndexError |}.
Proof. intros Hargv. rewrite run_cases, Hargv. reflexivity. Qed.

Section Renderable.

(** The renderer's side of the contract: on a non-empty text of
    renderable characters it returns a non-empty [str]. *)
Variable renderable : codepoint -> bool.
Hypothesis figlet_renders :
  forall s : str,
    s <> [] -> forallb renderable s = true ->
    exists art,
      figlet_format s = inr art /\ art <> [] /\ valid_str art = true.

(** C3: for a non-empty argument made of renderable characters,
    standard output is valid JSON: [json.loads] reads it as a dict
    with exactly one key, [ascii_art], whose value is a non-empty
    string. *)
Theorem renderable_input_valid_json
    (env : process_env) (prog s : str) :
  sys_argv env = [prog; s] ->
  s <> [] -> forallb renderable s = true ->
  exists v : str,
    loads (stdout (run figlet_format env))
    = Some (JDict [(lit "ascii_art", JStr v)])
    /\ v <> [].
Proof.
  intros Hargv Hne Hr.
  destruct (figlet_renders s Hne Hr) as (art & Hart & Hart_ne & Hv).
  rewrite run_cases, Hargv. cbn [nth_error]. rewrite Hart.
  cbn [stdout].
  exists (join_surrogates art). split.
  - apply loads_document; [exact Hv | reflexivity].
  - intros Hnil.
    exact (Hart_ne (proj1 (join_surrogates_nil_iff art) Hnil)).
Qed.

End Renderable.

(** C4: when the renderer raises on the first argument, the script ends
    with that exception uncaught and exit status 1, and standard output
    is empty: no part of a JSON document is written. *)
Theorem rendering_fault_no_output
    (env : process_env) (prog s : str) (extra : list str) (e : fault) :
  sys_argv env = prog :: s :: extra ->
  figlet_format s = inl e ->
  run figlet_format env
  = {| stdout := [];
       exit_status := 1;
       uncaught := Some (RenderingFault e) |}.
Proof.
  intros Hargv He. rewrite run_cases, Hargv. cbn [nth_error].
  rewrite He. reflexivity.
Qed.

(** C5: after a run that ends with status 0, parsing standard output
    with [json.loads] and serializing the parsed object again with
    [json.dumps] and [print] gives standard output back. *)
Theorem output_round_trip (env : process_env) :
  (forall s art, figlet_format s = inr art -> valid_str art = true) ->
  exit_status (run figlet_format env) = 0 ->
  exists obj : value,
    loads (stdout (run figlet_format env)) = Some obj
    /\ dumps obj ++ [NEWLINE] = stdout (run figlet_format env).
Proof.
  intros Hstr Hok.
  destruct (run_success _ _ _ Hok) as (text & art & _ & Hart & ->).
  exists (ascii_art_object (join_surrogates art)). split.
  - apply loads_document; [exact (Hstr _ _ Hart) | reflexivity].
  - rewrite !dumps_object, escape_sub_join. reflexivity.
Qed.


(** C7: on every command line the run is the reference function, the
    four steps in a row: the same standard output, exit status and
    exception, and the same calls of the renderer (one call, with
    [sys.argv[1]], when there is a first argument, whether it returns
    or raises; none otherwise).  What the reference function prints for
    a rendered argument is the JSON document holding the art. *)
Theorem main_equals_reference (env : process_env) :
  observe figlet_format env = reference figlet_format (sys_argv env)
  /\ (forall s art : str,
        nth_error (sys_argv env) 1 = Some s ->
        figlet_format s = inr art ->
        valid_str art = true ->
        rendered (reference figlet_format (sys_argv env)) = [s]
        /\ loads (stdout (result (reference figlet_format (sys_argv env))))
           = Some (JDict [(lit "ascii_art", JStr (join_surrogates art))])).
Proof.
  assert (Hobs : observe figlet_format env
                 = reference figlet_format (sys_argv env)).
  { unfold observe. rewrite run_cases, renderer_calls_cases.
    unfold reference, first_argument, render, failed, printed, serialize,
      wrap.
    destruct (sys_argv env) as [| prog [| text rest]]; try reflexivity.
    cbn [nth_error]. destruct (figlet_format text); reflexivity. }
  split; [exact Hobs |].
  intros s art Hs Hart Hv. rewrite <- Hobs. unfold observe.
  cbn [rendered result].
  rewrite renderer_calls_cases, run_cases, Hs, Hart. cbn [stdout].
  split; [reflexivity |].
  apply loads_document; [exact Hv | reflexivity].
Qed.

(** C8: for the empty argument the script does not fail by itself: with
    whatever [str] the renderer returns for the empty text, the run
    ends with status 0, standard output is the serialization of the
    object holding that string, and it is valid JSON. *)
Theorem empty_input_valid_json (env : process_env) (prog art : str) :
  sys_argv env = [prog; []] ->
  figlet_format [] = inr art ->
  valid_str art = true ->
  run figlet_format env
  = {| stdout := dumps (JDict [(lit "ascii_art", JStr art)]) ++ [NEWLINE];
       exit_status := 0;
       uncaught := None |}
  /\ loads (stdout (run figlet_format env))
     = Some (JDict [(lit "ascii_art", JStr (join_surrogates art))])
  /\ (forallb (fun c => negb (is_surrogate c)) art = true ->
      loads (stdout (run figlet_format env))
      = Some (JDict [(lit "ascii_art", JStr art)])).
Proof.
  intros Hargv Hart Hv.
  rewrite run_cases, Hargv. cbn [nth_error]. rewrite Hart. cbn [stdout].
  split; [reflexivity |].
  assert (Hl : loads (dumps (ascii_art_object art) ++ [NEWLINE])
               = Some (ascii_art_object (join_surrogates art))).
  { apply loads_document; [exact Hv | reflexivity]. }
  split; [exact Hl |].
  intros Hs. rewrite Hl, (join_surrogates_scalar art Hs). reflexivity.
Qed.

(** C9: arguments after the first are ignored, not rejected: two
    invocations with the same first argument have the same outcome
    (standard output, exit status, exception) whatever else follows on
    their command lines. *)
Theorem extra_arguments_ignored
    (env1 env2 : process_env) (prog1 prog2 s : str)
    (extra1 extra2 : list str) :
  sys_argv env1 = prog1 :: s :: extra1 ->
  sys_argv env2 = prog2 :: s :: extra2 ->
  run figlet_format env1 = run figlet_format env2.
Proof.
  intros H1 H2. rewrite !run_cases, H1, H2. reflexivity.
Qed.


End Properties.

(** ** The properties at concrete invocations *)

Lemma one_argument_output_witness :
  run sample_figlet (invocation [lit "HI"])
  = {| stdout :=
         dumps (JDict [(lit "ascii_art", JStr (lit "HI" ++ [NEWLINE]))])
         ++ [NEWLINE];
       exit_status := 0;
       uncaught := None |}
  /\ renderer_calls sample_figlet (invocation [lit "HI"]) = [lit "HI"]
  /\ (valid_str (lit "HI" ++ [NEWLINE]) = true ->
      loads (stdout (run sample_figlet (invocation [lit "HI"])))
      = Some (JDict [(lit "ascii_art",
                      JStr (join_surrogates (lit "HI" ++ [NEWLINE])))]))
  /\ (valid_str (lit "HI" ++ [NEWLINE]) = true ->
      forallb (fun c => negb (is_surrogate c)) (lit "HI" ++ [NEWLINE])
      = true ->
      loads (stdout (run sample_figlet (invocation [lit "HI"])))
      = Some (JDict [(lit "ascii_art", JStr (lit "HI" ++ [NEWLINE]))])).
Proof.
  apply (one_argument_output sample_fault sample_figlet
           (invocation [lit "HI"]) (lit "main.py") (lit "HI")
           (lit "HI" ++ [NEWLINE]));
    reflexivity.
Defined.

Lemma no_argument_fault_witness :
  run sample_figlet (invocation [])
  = {| stdout := []; exit_status := 1; uncaught := Some IndexError |}.
Proof.
  apply (no_argument_fault sample_fault sample_figlet
           (invocation []) (lit "main.py"));
    reflexivity.
Defined.

Lemma renderable_input_valid_json_witness :
  exists v : str,
    loads (stdout (run sample_figlet (invocation [lit "HI"])))
    = Some (JDict [(lit "ascii_art", JStr v)])
    /\ v <> [].
Proof.
  apply (renderable_input_valid_json sample_fault sample_figlet
           printable sample_figlet_renders
           (invocation [lit "HI"]) (lit "main.py") (lit "HI"));
    [reflexivity | discriminate | reflexivity].
Defined.

Lemma rendering_fault_no_output_witness :
  run sample_figlet (invocation [[233]; lit "HI"])
  = {| stdout := [];
       exit_status := 1;
       uncaught := Some (RenderingFault CharNotPrinted) |}.
Proof.
  apply (rendering_fault_no_output sample_fault sample_figlet
           (invocation [[233]; lit "HI"]) (lit "main.py") [233]
           [lit "HI"] CharNotPrinted);
    reflexivity.
Defined.

Lemma output_round_trip_witness :
  exists obj : value,
    loads (stdout (run sample_figlet (invocation [lit "HI"]))) = Some obj
    /\ dumps obj ++ [NEWLINE]
       = stdout (run sample_figlet (invocation [lit "HI"])).
Proof.
  apply (output_round_trip sample_fault sample_figlet
           (invocation [lit "HI"]) sample_figlet_valid).
  reflexivity.
Defined.



Lemma main_equals_reference_witness :
  observe sample_figlet (invocation [lit "HI"])
  = reference sample_figlet (sys_argv (invocation [lit "HI"]))
  /\ rendered (reference sample_figlet (sys_argv (invocation [lit "HI"])))
     = [lit "HI"]
  /\ loads (stdout (result (reference sample_figlet
                              (sys_argv (invocation [lit "HI"])))))
     = Some (JDict [(lit "ascii_art",
                     JStr (join_surrogates (lit "HI" ++ [NEWLINE])))]).
Proof.
  destruct (main_equals_reference sample_fault sample_figlet
              (invocation [lit "HI"])) as [Hobs Hdoc].
  split; [exact Hobs |].
  apply (Hdoc (lit "HI") (lit "HI" ++ [NEWLINE])); reflexivity.
Defined.

Lemma empty_input_valid_json_witness :
  run sample_figlet (invocation [[]])
  = {| stdout := dumps (JDict [(lit "ascii_art", JStr [])]) ++ [NEWLINE];
       exit_status := 0;
       uncaught := None |}
  /\ loads (stdout (run sample_figlet (invocation [[]])))
     = Some (JDict [(lit "ascii_art", JStr (join_surrogates []))])
  /\ (forallb (fun c => negb (is_surrogate c)) [] = true ->
      loads (stdout (run sample_figlet (invocation [[]])))
      = Some (JDict [(lit "ascii_art", JStr [])])).
Proof.
  apply (empty_input_valid_json sample_fault sample_figlet
           (invocation [[]]) (lit "main.py") []);
    reflexivity.
Defined.

Lemma extra_arguments_ignored_witness :
  run sample_figlet (invocation [lit "HI"; lit "--font"; lit "slant"])
  = run sample_figlet (invocation [lit "HI"]).
Proof.
  apply (extra_arguments_ignored sample_fault sample_figlet
           (invocation [lit "HI"; lit "--font"; lit "slant"])
           (invocation [lit "HI"])
           (lit "main.py") (lit "main.py") (lit "HI")
           [lit "--font"; lit "slant"] []);
    reflexivity.
Defined.



(** ** Further properties of the script *)

Lemma format_04x_length (n : N) :
  n < 0x10000 -> length (format_04x n) = 4%nat.
Proof.
  intros H. destruct (format_04x_spec n H) as (a & b & c & d & -> & _).
  reflexivity.
Qed.

Lemma sub_one_length (c : codepoint) :
  (1 <= length (sub_one c) <= 12)%nat.
Proof.
  destruct (enc_shape_ok c) as
    [Hp Hq Hb | x Hp Hx Hd Hlt | Hlt Hp | s1 s2 Hge H1 H2 Hj].
  - cbn [length]. lia.
  - cbn [length]. lia.
  - rewrite length_app, (format_04x_length c Hlt). cbn [length lit map].
    change (length (lit "\u")) with 2%nat. lia.
  - apply high_bounds in H1. apply low_bounds in H2.
    rewrite !length_app, !format_04x_length by lia.
    change (length (lit "\u")) with 2%nat. lia.
Qed.

Lemma escape_sub_length (s : str) :
  (length s <= length (escape_sub s) <= 12 * length s)%nat.
Proof.
  induction s as [| c s IH]; [cbn; lia |].
  rewrite escape_sub_cons, length_app. cbn [length].
  pose proof (sub_one_length c). lia.
Qed.

Lemma dumps_object_length (art : str) :
  length (dumps (ascii_art_object art))
  = (17 + length (escape_sub art))%nat.
Proof.
  rewrite dumps_object, !length_app.
  change (length document_head) with 15%nat.
  change (length document_tail) with 2%nat. lia.
Qed.

Lemma sub_one_length_plain_or_short (c : codepoint) :
  printable c || (c =? NEWLINE) = true ->
  length (sub_one c)
  = if (c =? NEWLINE) || (c =? QUOTE) || (c =? BACKSLASH) then 2%nat
    else 1%nat.
Proof.
  unfold NEWLINE, QUOTE, BACKSLASH. intros H.
  destruct (N.eqb_spec c 10) as [E | H10]; [rewrite E; reflexivity |].
  destruct (N.eqb_spec c 34) as [E | H34]; [rewrite E; reflexivity |].
  destruct (N.eqb_spec c 92) as [E | H92]; [rewrite E; reflexivity |].
  rewrite orb_false_r in H. cbn [orb].
  unfold sub_one, ESCAPE_ASCII, QUOTE, BACKSLASH.
  fold (printable c). rewrite H.
  rewrite (proj2 (N.eqb_neq c 92) H92), (proj2 (N.eqb_neq c 34) H34).
  reflexivity.
Qed.

Lemma escape_sub_length_plain_or_short (s : str) :
  forallb (fun c => printable c || (c =? NEWLINE)) s = true ->
  length (escape_sub s)
  = (length s
     + length (filter (fun c : N => ((c =? NEWLINE) || (c =? QUOTE)
                                    || (c =? BACKSLASH))%N) s))%nat.
Proof.
  induction s as [| c s IH]; [reflexivity |].
  cbn [forallb]. rewrite andb_true_iff. intros [Hc Hs].
  rewrite escape_sub_cons, length_app, (IH Hs).
  rewrite (sub_one_length_plain_or_short c Hc).
  cbn [filter length].
  destruct ((c =? NEWLINE) || (c =? QUOTE) || (c =? BACKSLASH));
    cbn [length]; lia.
Qed.

Section MoreProperties.

Variable fault : Type.
Variable figlet_format : str -> fault + str.

(** What [json.loads] reads from the standard output of a run whose
    first argument was rendered. *)
Lemma run_read_back (env : process_env) (s art : str) :
  nth_error (sys_argv env) 1 = Some s ->
  figlet_format s = inr art ->
  valid_str art = true ->
  loads (stdout (run figlet_format env))
  = Some (ascii_art_object (join_surrogates art)).
Proof.
  intros Hs Hart Hv. rewrite run_cases, Hs, Hart. cbn [stdout].
  apply loads_document; [exact Hv | reflexivity].
Qed.

(** X1: when the rendered art holds no surrogate code point,
    [json.loads] of standard output is exactly the dict with the single
    key [ascii_art] and the art as its value: nothing of the art is lost
    or changed by the serialization, whatever else is on the command
    line. *)
Theorem stdout_recovers_art (env : process_env) (s art : str) :
  nth_error (sys_argv env) 1 = Some s ->
  figlet_format s = inr art ->
  valid_str art = true ->
  forallb (fun c => negb (is_surrogate c)) art = true ->
  loads (stdout (run figlet_format env))
  = Some (JDict [(lit "ascii_art", JStr art)]).
Proof.
  intros Hs Hart Hv Hsc.
  rewrite (run_read_back env s art Hs Hart Hv).
  rewrite (join_surrogates_scalar art Hsc). reflexivity.
Qed.

(** X2: for any rendered [str], [json.loads] of standard output is the
    single-key dict whose value is the art with every high surrogate
    that is directly followed by a low surrogate joined with it into the
    code point the pair stands for; the art is empty exactly when that
    value is. *)
Theorem stdout_read_back_joined (env : process_env) (s art : str) :
  nth_error (sys_argv env) 1 = Some s ->
  figlet_format s = inr art ->
  valid_str art = true ->
  loads (stdout (run figlet_format env))
  = Some (JDict [(lit "ascii_art", JStr (join_surrogates art))])
  /\ (join_surrogates art = [] <-> art = []).
Proof.
  intros Hs Hart Hv. split.
  - exact (run_read_back env s art Hs Hart Hv).
  - apply join_surrogates_nil_iff.
Qed.

(** X3: standard output determines the art: two runs whose rendered
    arts hold no surrogates and whose standard outputs are equal had
    equal arts. *)
Theorem stdout_determines_art
    (env1 env2 : process_env) (s1 s2 art1 art2 : str) :
  nth_error (sys_argv env1) 1 = Some s1 ->
  nth_error (sys_argv env2) 1 = Some s2 ->
  figlet_format s1 = inr art1 ->
  figlet_format s2 = inr art2 ->
  valid_str art1 = true -> valid_str art2 = true ->
  forallb (fun c => negb (is_surrogate c)) art1 = true ->
  forallb (fun c => negb (is_surrogate c)) art2 = true ->
  stdout (run figlet_format env1) = stdout (run figlet_format env2) ->
  art1 = art2.
Proof.
  intros Hs1 Hs2 Ha1 Ha2 Hv1 Hv2 Hsc1 Hsc2 Hout.
  pose proof (run_read_back env1 s1 art1 Hs1 Ha1 Hv1) as H1.
  pose proof (run_read_back env2 s2 art2 Hs2 Ha2 Hv2) as H2.
  rewrite (join_surrogates_scalar art1 Hsc1) in H1.
  rewrite (join_surrogates_scalar art2 Hsc2) in H2.
  rewrite Hout, H2 in H1.
  unfold ascii_art_object in H1. congruence.
Qed.


(** X5: the run ends with [IndexError] exactly when [sys.argv] has fewer
    than two elements, the empty [sys.argv] included. *)
Theorem index_error_iff_short_argv (env : process_env) :
  uncaught (run figlet_format env) = Some IndexError
  <-> (length (sys_argv env) < 2)%nat.
Proof.
  rewrite run_cases.
  destruct (sys_argv env) as [| prog [| text rest]]; cbn [nth_error length].
  - split; [lia | reflexivity].
  - split; [lia | reflexivity].
  - destruct (figlet_format text); split; (discriminate || lia).
Qed.

(** X6: the run ends with status 0 exactly when [sys.argv[1]] exists and
    the renderer returns a [str] for it. *)
Theorem success_iff_rendered (env : process_env) :
  exit_status (run figlet_format env) = 0
  <-> exists text art,
        nth_error (sys_argv env) 1 = Some text
        /\ figlet_format text = inr art.
Proof.
  split.
  - intros Hok.
    destruct (run_success _ _ _ Hok) as (text & art & Ht & Hart & _).
    exists text, art. split; assumption.
  - intros (text & art & Ht & Hart).
    rewrite run_cases, Ht, Hart. reflexivity.
Qed.

(** X7: a run is all or nothing: either it ends with status 0, no
    uncaught exception and a non-empty standard output, or it ends with
    status 1, an uncaught exception and an empty standard output. *)
Theorem all_or_nothing (env : process_env) :
  (exit_status (run figlet_format env) = 0
   /\ uncaught (run figlet_format env) = None
   /\ stdout (run figlet_format env) <> [])
  \/ (exit_status (run figlet_format env) = 1
      /\ uncaught (run figlet_format env) <> None
      /\ stdout (run figlet_format env) = []).
Proof.
  rewrite run_cases.
  destruct (nth_error (sys_argv env) 1) as [text |].
  - destruct (figlet_format text) as [e | art].
    + right. cbn. repeat split. discriminate.
    + left. cbn [exit_status uncaught stdout]. repeat split.
      rewrite dumps_object. unfold document_head.
      change (lit "{") with [123]. cbn [app]. discriminate.
  - right. cbn. repeat split. discriminate.
Qed.

(** X8: the size of standard output is linear in the size of the art:
    at least the length of the art plus 18 (the fixed text around it and
    the line end) and at most twelve times the length of the art plus
    18. *)
Theorem stdout_length_bounds (env : process_env) (s art : str) :
  nth_error (sys_argv env) 1 = Some s ->
  figlet_format s = inr art ->
  (length art + 18 <= length (stdout (run figlet_format env))
   /\ length (stdout (run figlet_format env)) <= 12 * length art + 18)%nat.
Proof.
  intros Hs Hart. rewrite run_cases, Hs, Hart. cbn [stdout].
  rewrite length_app, dumps_object_length. cbn [length].
  pose proof (escape_sub_length art). lia.
Qed.

(** X9: for art made of printable ASCII and line feeds, as a figlet
    font renders it, the size of standard output is exact: the length
    of the art, plus one for each line feed, double quote and backslash
    in it (each is written as a two-character escape), plus 18. *)
Theorem stdout_length_figlet_art (env : process_env) (s art : str) :
  nth_error (sys_argv env) 1 = Some s ->
  figlet_format s = inr art ->
  forallb (fun c => printable c || (c =? NEWLINE)) art = true ->
  length (stdout (run figlet_format env))
  = (18 + length art
     + length (filter (fun c : N => ((c =? NEWLINE) || (c =? QUOTE)
                                    || (c =? BACKSLASH))%N) art))%nat.
Proof.
  intros Hs Hart Hp. rewrite run_cases, Hs, Hart. cbn [stdout].
  rewrite length_app, dumps_object_length. cbn [length].
  rewrite (escape_sub_length_plain_or_short art Hp). lia.
Qed.

End MoreProperties.

(** ** The further properties at concrete invocations *)

Lemma stdout_recovers_art_witness :
  loads (stdout (run sample_figlet (invocation [lit "HI"; lit "-v"])))
  = Some (JDict [(lit "ascii_art", JStr (lit "HI" ++ [NEWLINE]))]).
Proof.
  apply (stdout_recovers_art sample_fault sample_figlet
           (invocation [lit "HI"; lit "-v"]) (lit "HI")
           (lit "HI" ++ [NEWLINE]));
    reflexivity.
Defined.

Lemma stdout_read_back_joined_witness :
  loads (stdout
           (run (fun _ : str => @inr sample_fault str [0xd83d; 0xde00; 0xdc80])
                (invocation [lit "HI"])))
  = Some (JDict [(lit "ascii_art",
                  JStr (join_surrogates [0xd83d; 0xde00; 0xdc80]))])
  /\ (join_surrogates [0xd83d; 0xde00; 0xdc80] = []
      <-> [0xd83d; 0xde00; 0xdc80] = []).
Proof.
  apply (stdout_read_back_joined sample_fault
           (fun _ : str => @inr sample_fault str [0xd83d; 0xde00; 0xdc80])
           (invocation [lit "HI"]) (lit "HI")
           [0xd83d; 0xde00; 0xdc80]);
    reflexivity.
Defined.

Lemma stdout_determines_art_witness :
  lit "HI" ++ [NEWLINE] = lit "HI" ++ [NEWLINE].
Proof.
  apply (stdout_determines_art sample_fault sample_figlet
           (invocation [lit "HI"]) (invocation [lit "HI"; lit "-v"])
           (lit "HI") (lit "HI")
           (lit "HI" ++ [NEWLINE]) (lit "HI" ++ [NEWLINE]));
    reflexivity.
Defined.

Lemma stdout_length_bounds_witness :
  (length (lit "HI" ++ [NEWLINE]) + 18
   <= length (stdout (run sample_figlet (invocation [lit "HI"])))
   /\ length (stdout (run sample_figlet (invocation [lit "HI"])))
      <= 12 * length (lit "HI" ++ [NEWLINE]) + 18)%nat.
Proof.
  apply (stdout_length_bounds sample_fault sample_figlet
           (invocation [lit "HI"]) (lit "HI") (lit "HI" ++ [NEWLINE]));
    reflexivity.
Defined.

Lemma stdout_length_figlet_art_witness :
  length (stdout (run sample_figlet (invocation [lit "/\\"])))
  = (18 + length (lit "/\\" ++ [NEWLINE])
     + length (filter (fun c : N => ((c =? NEWLINE) || (c =? QUOTE)
                                    || (c =? BACKSLASH))%N)
                 (lit "/\\" ++ [NEWLINE])))%nat.
Proof.
  apply (stdout_length_figlet_art sample_fault sample_figlet
           (invocation [lit "/\\"]) (lit "/\\") (lit "/\\" ++ [NEWLINE]));
    reflexivity.
Defined.
